(** * MergeDetail.tsx: the merge-request detail page

    A shallow embedding of [src/components/MergeDetail.tsx] (component
    [MRDetailPage]) and the properties of its state-and-effect contract.

    The component is a React function component.  Its three [useState]
    cells are a record, its two [async] functions are terms of a small
    free monad whose suspension points are the [await]s of the source, and
    the React runtime (render, effect with dependency list, event handlers,
    promise settlement) is an executable step function over a world. *)

From Stdlib Require Import ZArith Bool String.
From stdpp Require Import base list strings pretty.

Local Open Scope string_scope.
Local Open Scope list_scope.
Set Warnings "-register-all".

(** ** JavaScript values *)

(** Values a parsed JSON body, or a property read from one, can take.
    [VUndefined] never comes out of [JSON.parse]; it is what reading a
    property that is not there gives.  Numbers are kept to integers: the
    component does no arithmetic on them.  An object lists its members in
    the order of the text. *)
Inductive jsval : Type :=
| VUndefined
| VNull
| VBool (b : bool)
| VNum (z : Z)
| VStr (s : string)
| VArr (xs : list jsval)
| VObj (members : list (string * jsval)).

(** Values thrown in this component. *)
Inductive js_error : Type :=
| TypeError (msg : string)
| SyntaxError (msg : string)
| OtherError (msg : string).

(** [ToBoolean]. *)
Definition truthy (v : jsval) : bool :=
  match v with
  | VUndefined | VNull => false
  | VBool b => b
  | VNum z => negb (z =? 0)%Z
  | VStr s => negb (String.eqb s "")
  | VArr _ | VObj _ => true
  end.

(** A member of a parsed object; a name that occurs twice in the text
    keeps its last value, as [JSON.parse] does. *)
Fixpoint obj_get (k : string) (members : list (string * jsval)) : option jsval :=
  match members with
  | [] => None
  | (k', v) :: rest =>
      match obj_get k rest with
      | Some w => Some w
      | None => if String.eqb k k' then Some v else None
      end
  end.

(** [v.data]: a [TypeError] on [undefined] and [null], the member of an
    object, and [undefined] on every other value (booleans, numbers,
    strings and arrays have no property of that name). *)
Definition get_data (v : jsval) : js_error + jsval :=
  match v with
  | VUndefined => inl (TypeError "Cannot read properties of undefined (reading 'data')")
  | VNull => inl (TypeError "Cannot read properties of null (reading 'data')")
  | VObj members => inr (default VUndefined (obj_get "data" members))
  | _ => inr VUndefined
  end.

(** The string a template literal puts for [${v}]; an array joins its
    elements with commas, [null] and [undefined] elements giving nothing. *)
Fixpoint to_string (v : jsval) : string :=
  match v with
  | VUndefined => "undefined"
  | VNull => "null"
  | VBool true => "true"
  | VBool false => "false"
  | VNum z => pretty z
  | VStr s => s
  | VArr xs =>
      String.concat ","
        (map (fun x => match x with
                       | VUndefined | VNull => ""
                       | _ => to_string x
                       end) xs)
  | VObj _ => "[object Object]"
  end.

(** ** The prop [mrDetail] *)

(** A merge-request summary object.  [ref] is the identity of the object:
    two summaries with the same [ref] are the same JavaScript object. *)
Record summary : Type := Summary {
  ref : nat;
  id : jsval;
  status : jsval
}.

Inductive props : Type :=
| PUndefined
| PNull
| PObj (o : summary).

(** [Object.is] on two values of the prop, as React compares dependencies. *)
Definition object_is (a b : props) : bool :=
  match a, b with
  | PUndefined, PUndefined => true
  | PNull, PNull => true
  | PObj o1, PObj o2 => Nat.eqb (ref o1) (ref o2)
  | _, _ => false
  end.

(** ** The network *)

Inductive http_method : Type := GET | POST.

Record request : Type := Request {
  method : http_method;
  url : string
}.

Record Response : Type := { http_status : Z }.

(** [if (res)] on a [Response]: an object is truthy. *)
Definition response_truthy (res : Response) : bool := true.

(** [res.ok]. *)
Definition ok (res : Response) : bool :=
  ((200 <=? http_status res) && (http_status res <=? 299))%Z.

(** How the promise of [fetch] settles. *)
Inductive fetch_outcome : Type :=
| Rejected (e : js_error)
| Resolved (res : Response).

(** How the promise of [res.json()] settles. *)
Inductive json_outcome : Type :=
| JsonRejected (e : js_error)
| JsonResolved (result : jsval).

(** ** Component state *)

(** [loadings] is a JavaScript array of booleans with holes: [None] is a
    hole (or [undefined]). *)
Record state : Type := State {
  filedata : jsval;
  loadings : list (option bool);
  error : option js_error
}.

(** The three [useState] initial values. *)
Definition initial_state : state :=
  {| filedata := VArr []; loadings := []; error := None |}.

(** [v === "..."] against a string literal. *)
Definition strict_eq_str (v : jsval) (lit : string) : bool :=
  match v with
  | VStr s => String.eqb s lit
  | _ => false
  end.

(** [a[index] = v] on a copy of the array: in range it overwrites, out of
    range the array grows and the gap is holes. *)
Definition array_set (index : nat) (v : bool) (a : list (option bool)) : list (option bool) :=
  if decide (index < length a)
  then <[index := Some v]> a
  else a ++ replicate (index - length a) None ++ [Some v].

(** [a[index]], [None] standing for [undefined]. *)
Definition array_get (a : list (option bool)) (index : nat) : option bool :=
  mjoin (a !! index).

(** A slot read as a condition ([loading={loadings[i]}]). *)
Definition busy (a : list (option bool)) (index : nat) : bool :=
  default false (array_get a index).

(** ** Asynchronous code *)

(** A synchronous effect of the component: a state setter or the router. *)
Inductive sync_op : Type :=
| SetFileData (v : jsval)
| SetLoadings (updater : list (option bool) -> list (option bool))
| SetError (e : js_error)
| RouterRefresh.

(** The body of an [async] function.  [AwaitFetch] and [AwaitJson] are the
    two [await]s of the source: the function is suspended there and the
    continuation runs when the promise settles. *)
Inductive async (A : Type) : Type :=
| Ret (a : A)
| Throw (e : js_error)
| Do (op : sync_op) (k : async A)
| AwaitFetch (req : request) (k : fetch_outcome -> async A)
| AwaitJson (res : Response) (k : json_outcome -> async A).

Arguments Ret {A} a.
Arguments Throw {A} e.
Arguments Do {A} op k.
Arguments AwaitFetch {A} req k.
Arguments AwaitJson {A} res k.

Fixpoint bind {A B : Type} (m : async A) (f : A -> async B) : async B :=
  match m with
  | Ret a => f a
  | Throw e => Throw e
  | Do op k => Do op (bind k f)
  | AwaitFetch req k => AwaitFetch req (fun o => bind (k o) f)
  | AwaitJson res k => AwaitJson res (fun o => bind (k o) f)
  end.

Notation "x <- m ;; f" := (bind m (fun x => f))
  (at level 100, m at next level, right associativity).
Notation "m ;; f" := (bind m (fun _ => f))
  (at level 100, right associativity).

(** [try { body } catch (err) { handler err }]. *)
Fixpoint try_catch {A : Type} (body : async A) (handler : js_error -> async A) : async A :=
  match body with
  | Ret a => Ret a
  | Throw e => handler e
  | Do op k => Do op (try_catch k handler)
  | AwaitFetch req k => AwaitFetch req (fun o => try_catch (k o) handler)
  | AwaitJson res k => AwaitJson res (fun o => try_catch (k o) handler)
  end.

(** [try { body } finally { cleanup }]: the cleanup runs on both exits and
    the exit of the body is kept. *)
Fixpoint try_finally {A : Type} (body : async A) (cleanup : async unit) : async A :=
  match body with
  | Ret a => cleanup ;; Ret a
  | Throw e => cleanup ;; Throw e
  | Do op k => Do op (try_finally k cleanup)
  | AwaitFetch req k => AwaitFetch req (fun o => try_finally (k o) cleanup)
  | AwaitJson res k => AwaitJson res (fun o => try_finally (k o) cleanup)
  end.

Definition perform (op : sync_op) : async unit := Do op (Ret tt).

(** [await fetch(...)]: a rejection is thrown at the [await]. *)
Definition fetch (req : request) : async Response :=
  AwaitFetch req (fun o =>
    match o with
    | Rejected e => Throw e
    | Resolved res => Ret res
    end).

(** [await res.json()]. *)
Definition json (res : Response) : async jsval :=
  AwaitJson res (fun o =>
    match o with
    | JsonRejected e => Throw e
    | JsonResolved result => Ret result
    end).

(** An expression that may throw, inside an [async] body. *)
Definition lift {A : Type} (r : js_error + A) : async A :=
  match r with
  | inl e => Throw e
  | inr a => Ret a
  end.

(** ** The component's functions *)

Definition set_to_loading (index : nat) : async unit :=
  perform (SetLoadings (fun prevLoadings => array_set index true prevLoadings)).

Definition cancel_loading (index : nat) : async unit :=
  perform (SetLoadings (fun prevLoadings => array_set index false prevLoadings)).

Definition files_request (mr_id : jsval) : request :=
  {| method := GET; url := ("/api/mr/" ++ to_string mr_id ++ "/files")%string |}.

Definition merge_request (mr_id : jsval) : request :=
  {| method := POST; url := ("/api/mr/" ++ to_string mr_id ++ "/merge")%string |}.

(** [fetchFileList], closed over the [mrDetail] of the render that created
    the effect.  It is only called when [mrDetail] is an object. *)
Definition fetchFileList (mrDetail : summary) : async unit :=
  set_to_loading 2 ;;
  try_finally
    (try_catch
       (res <- fetch (files_request (id mrDetail)) ;;
        result <- json res ;;
        data <- lift (get_data result) ;;
        files <- lift (get_data data) ;;
        perform (SetFileData files))
       (fun err => perform (SetError err)))
    (cancel_loading 2).

(** The effect of [useEffect(..., [mrDetail])]. *)
Definition effect (mrDetail : props) : async unit :=
  match mrDetail with
  | PUndefined | PNull => Ret tt
  | PObj o => if negb (truthy (id o)) then Ret tt else fetchFileList o
  end.

(** [approve_mr]. *)
Definition approve_mr (index : nat) (mr_id : jsval) : async unit :=
  set_to_loading index ;;
  res <- fetch (merge_request mr_id) ;;
  (if response_truthy res then cancel_loading index else Ret tt) ;;
  (if ok res then perform RouterRefresh else Ret tt).

(** ** Rendering *)

(** What [MRDetailPage] hands to the widgets of [antd]. *)
Record button_props : Type := {
  button_loading : option bool;
  onClick : async unit
}.

Record view : Type := {
  merge_button : option button_props;
  panel_title : jsval;
  list_dataSource : jsval;
  list_loading : option bool
}.

(** The [return ( ... )] of the component.  [mrDetail.status] is read
    first and throws when [mrDetail] is [undefined] or [null]. *)
Definition render (mrDetail : props) (s : state) : js_error + view :=
  match mrDetail with
  | PUndefined =>
      inl (TypeError "Cannot read properties of undefined (reading 'status')")
  | PNull =>
      inl (TypeError "Cannot read properties of null (reading 'status')")
  | PObj o =>
      inr {| merge_button :=
               if strict_eq_str (status o) "open"
               then Some {| button_loading := array_get (loadings s) 1;
                            onClick := approve_mr 1 (id o) |}
               else None;
             panel_title := id o;
             list_dataSource := s.(filedata);
             list_loading := array_get (loadings s) 2 |}
  end.

(** [renderItem]: one [List.Item] holding the element. *)
Inductive list_item : Type := ListItem (item : jsval).

(** The entries [antd]'s [List] shows for a [dataSource]: its default is
    the empty array, and it maps [renderItem] over an array in order.
    Other values are not arrays of entries. *)
Definition list_entries (dataSource : jsval) : option (list list_item) :=
  match dataSource with
  | VUndefined => Some []
  | VArr xs => Some (map ListItem xs)
  | _ => None
  end.

(** ** The runtime *)

(** A suspended [async] function: the promise it awaits and the rest of
    its body. *)
Inductive task : Type :=
| WaitFetch (req : request) (k : fetch_outcome -> async unit)
| WaitJson (res : Response) (k : json_outcome -> async unit).

Record world : Type := World {
  (** the prop of the last committed render, [None] before the mount *)
  mrDetail : option props;
  st : state;
  (** the error a render threw, which unmounts the component *)
  crashed : option js_error;
  pending : list task;
  (** every request handed to [fetch], oldest first *)
  requests : list request;
  (** calls of [router.refresh()] *)
  refreshes : nat;
  (** rejections of promises nobody handles *)
  unhandled : list js_error
}.

Definition init : world :=
  {| mrDetail := None; st := initial_state; crashed := None; pending := [];
     requests := []; refreshes := 0; unhandled := [] |}.

Definition with_st (f : state -> state) (w : world) : world :=
  {| mrDetail := mrDetail w; st := f (st w); crashed := crashed w;
     pending := pending w; requests := requests w; refreshes := refreshes w;
     unhandled := unhandled w |}.

Definition with_pending (f : list task -> list task) (w : world) : world :=
  {| mrDetail := mrDetail w; st := st w; crashed := crashed w;
     pending := f (pending w); requests := requests w; refreshes := refreshes w;
     unhandled := unhandled w |}.

(** A state setter does nothing once the component is unmounted. *)
Definition set_state (f : state -> state) (w : world) : world :=
  match crashed w with
  | None => with_st f w
  | Some _ => w
  end.

Definition run_op (op : sync_op) (w : world) : world :=
  match op with
  | SetFileData v =>
      set_state (fun s => {| filedata := v; loadings := loadings s; error := error s |}) w
  | SetLoadings updater =>
      set_state (fun s => {| filedata := filedata s; loadings := updater (loadings s);
                             error := error s |}) w
  | SetError e =>
      set_state (fun s => {| filedata := filedata s; loadings := loadings s;
                             error := Some e |}) w
  | RouterRefresh =>
      {| mrDetail := mrDetail w; st := st w; crashed := crashed w;
         pending := pending w; requests := requests w;
         refreshes := S (refreshes w); unhandled := unhandled w |}
  end.

(** Run an [async] body up to its next [await], or to its end.  A body
    that ends by throwing rejects a promise that no caller of this
    component handles. *)
Fixpoint exec (a : async unit) (w : world) : world :=
  match a with
  | Ret _ => w
  | Throw e =>
      {| mrDetail := mrDetail w; st := st w; crashed := crashed w;
         pending := pending w; requests := requests w; refreshes := refreshes w;
         unhandled := unhandled w ++ [e] |}
  | Do op k => exec k (run_op op w)
  | AwaitFetch req k =>
      {| mrDetail := mrDetail w; st := st w; crashed := crashed w;
         pending := pending w ++ [WaitFetch req k];
         requests := requests w ++ [req]; refreshes := refreshes w;
         unhandled := unhandled w |}
  | AwaitJson res k => with_pending (fun p => p ++ [WaitJson res k]) w
  end.

(** Whether React runs the effect after a render: on the mount, and when
    the dependency [mrDetail] is not the value of the previous render. *)
Definition deps_changed (prev : option props) (next : props) : bool :=
  match prev with
  | None => true
  | Some p => negb (object_is p next)
  end.

Inductive event : Type :=
| Render (p : props)                          (* the parent renders the page with [p] *)
| Click                                       (* the user clicks "Merge MR" *)
| Settle (n : nat) (o : fetch_outcome)        (* the [n]-th pending promise, a [fetch] *)
| SettleJson (n : nat) (o : json_outcome).    (* the [n]-th pending promise, a [json()] *)

Definition commit (p : props) (w : world) : world :=
  {| mrDetail := Some p; st := st w; crashed := crashed w; pending := pending w;
     requests := requests w; refreshes := refreshes w; unhandled := unhandled w |}.

Definition crash (e : js_error) (w : world) : world :=
  {| mrDetail := mrDetail w; st := st w; crashed := Some e; pending := pending w;
     requests := requests w; refreshes := refreshes w; unhandled := unhandled w |}.

(** The button the user can click: [antd]'s [Button] takes no click while
    its [loading] prop is set. *)
Definition clickable (w : world) : option button_props :=
  match crashed w, mrDetail w with
  | None, Some p =>
      match render p (st w) with
      | inr v =>
          match merge_button v with
          | Some b => if default false (button_loading b) then None else Some b
          | None => None
          end
      | inl _ => None
      end
  | _, _ => None
  end.

Definition step (e : event) (w : world) : world :=
  match e with
  | Render p =>
      match crashed w with
      | Some _ => w
      | None =>
          match render p (st w) with
          | inl err => crash err w
          | inr _ =>
              if deps_changed (mrDetail w) p
              then exec (effect p) (commit p w)
              else commit p w
          end
      end
  | Click =>
      match clickable w with
      | Some b => exec (onClick b) w
      | None => w
      end
  | Settle n o =>
      match pending w !! n with
      | Some (WaitFetch _ k) => exec (k o) (with_pending (delete n) w)
      | _ => w
      end
  | SettleJson n o =>
      match pending w !! n with
      | Some (WaitJson _ k) => exec (k o) (with_pending (delete n) w)
      | _ => w
      end
  end.

Fixpoint run (es : list event) (w : world) : world :=
  match es with
  | [] => w
  | e :: es' => run es' (step e w)
  end.

(** The [await] at which a body suspends first, if it reaches one. *)
Fixpoint suspension (a : async unit) : option task :=
  match a with
  | Ret _ | Throw _ => None
  | Do _ k => suspension k
  | AwaitFetch req k => Some (WaitFetch req k)
  | AwaitJson res k => Some (WaitJson res k)
  end.

(** The rest of a body suspended on a [fetch], once the [fetch] has
    settled with [o]. *)
Definition after_fetch (a : async unit) (o : fetch_outcome) : async unit :=
  match suspension a with
  | Some (WaitFetch _ k) => k o
  | _ => Ret tt
  end.

Definition task_request (t : task) : option request :=
  match t with
  | WaitFetch req _ => Some req
  | WaitJson _ _ => None
  end.

Definition reachable (w : world) : Prop :=
  exists es : list event, w = run es init.

(** ** The tasks of a running page *)

(** The three kinds of suspended body this component can leave pending:
    [fetchFileList] at its [fetch], [fetchFileList] at its [res.json()],
    and [approve_mr], which the button calls with slot 1, at its [fetch]. *)
Definition files_task (t : task) : Prop :=
  exists o, suspension (fetchFileList o) = Some t.

Definition json_task (t : task) : Prop :=
  exists o res, suspension (after_fetch (fetchFileList o) (Resolved res)) = Some t.

Definition merge_task (t : task) : Prop :=
  exists mr_id, suspension (approve_mr 1 mr_id) = Some t.

Definition known_task (t : task) : Prop :=
  files_task t \/ json_task t \/ merge_task t.

(** What one event does to the [loadings] array and to the pending
    tasks. *)
Inductive change (e : event) (w w' : world) : Prop :=
| ch_none :
    st w' = st w -> pending w' = pending w -> unhandled w' = unhandled w ->
    change e w w'
| ch_files_start (t : task) :
    files_task t ->
    loadings (st w') = array_set 2 true (loadings (st w)) ->
    pending w' = pending w ++ [t] ->
    change e w w'
| ch_merge_start (t : task) :
    e = Click ->
    busy (loadings (st w)) 1 = false ->
    merge_task t ->
    loadings (st w') = array_set 1 true (loadings (st w)) ->
    pending w' = pending w ++ [t] ->
    change e w w'
| ch_files_resolved (n : nat) (res : Response) (t t2 : task) :
    e = Settle n (Resolved res) ->
    pending w !! n = Some t -> files_task t -> json_task t2 ->
    loadings (st w') = loadings (st w) ->
    pending w' = delete n (pending w) ++ [t2] ->
    change e w w'
| ch_files_rejected (n : nat) (err : js_error) (t : task) :
    e = Settle n (Rejected err) ->
    pending w !! n = Some t -> files_task t ->
    (loadings (st w') = loadings (st w) \/
     loadings (st w') = array_set 2 false (loadings (st w))) ->
    pending w' = delete n (pending w) ->
    change e w w'
| ch_json_settled (n : nat) (o : json_outcome) (t : task) :
    e = SettleJson n o ->
    pending w !! n = Some t -> json_task t ->
    (loadings (st w') = loadings (st w) \/
     loadings (st w') = array_set 2 false (loadings (st w))) ->
    pending w' = delete n (pending w) ->
    change e w w'
| ch_merge_settled (n : nat) (o : fetch_outcome) (t : task) :
    e = Settle n o ->
    pending w !! n = Some t -> merge_task t ->
    (loadings (st w') = loadings (st w) \/
     loadings (st w') = array_set 1 false (loadings (st w))) ->
    pending w' = delete n (pending w) ->
    change e w w'.

(** ** Invariants of a running page *)

Definition is_merge (t : task) : bool :=
  match t with
  | WaitFetch req _ =>
      match method req with
      | POST => true
      | GET => false
      end
  | WaitJson _ _ => false
  end.

(** The number of merge requests in flight. *)
Definition merges (l : list task) : nat := length (List.filter is_merge l).

(** Every pending task is one of the three kinds; at most one merge is in
    flight, and while it is, slot 1 is busy. *)
Record Inv (w : world) : Prop := {
  inv_known : Forall known_task (pending w);
  inv_one : merges (pending w) <= 1;
  inv_busy : merges (pending w) = 1 -> array_get (loadings (st w)) 1 = Some true
}.

(** No merge is in flight, yet slot 1 is busy. *)
Record Stuck (w : world) : Prop := {
  stuck_known : Forall known_task (pending w);
  stuck_none : merges (pending w) = 0;
  stuck_busy : array_get (loadings (st w)) 1 = Some true
}.

(** The event completes a file-list fetch step: it settles the [fetch] or
    the [res.json()] of a pending [fetchFileList]. *)
Definition settles_file_list (e : event) (w : world) : Prop :=
  match e with
  | Settle n _ => exists t, pending w !! n = Some t /\ files_task t
  | SettleJson n _ => exists t, pending w !! n = Some t /\ json_task t
  | _ => False
  end.

Arguments get_data : simpl never.
Arguments truthy : simpl never.
Arguments ok : simpl never.
Arguments array_set : simpl never.
Arguments array_get : simpl never.

(** Split a pending task of a running page into its three kinds, with its
    continuation spelled out. *)
Ltac known_cases Hknown Hn :=
  let Hk := fresh "Hk" in
  pose proof (Forall_lookup_1 _ _ _ _ Hknown Hn)
    as [[? Hk] | [(? & ? & Hk) | [? Hk]]];
  cbn in Hk; injection Hk as <-.

(** Case analysis on everything a step of the page branches on. *)
Ltac crunch :=
  cbn in *;
  repeat (match goal with
          | |- context [lift (get_data ?v)] => destruct (get_data v) eqn:?
          | |- context [match ?x with _ => _ end] =>
              lazymatch x with
              | context [match _ with _ => _ end] => fail
              | _ => destruct x eqn:?
              end
          end; cbn in *).

(** One step [step e w] of a page whose pending tasks are known, event by
    event and task by task; [tac] closes each case. *)
Ltac step_cases e w Hknown tac :=
  let Hn := fresh "Hn" in
  destruct e as [? | | ?n ?o | ?n ?o];
  [ destruct w as [? ? [?|] ? ? ? ?];
    match goal with p : props |- _ => destruct p as [ | | ?] end; crunch; tac
  | destruct w as [[[ | | ?]|] ? [?|] ? ? ? ?]; unfold step, clickable; crunch; tac
  | unfold step;
    lazymatch goal with
    | |- context [pending w !! ?n] =>
        destruct (pending w !! n) as [?|] eqn:Hn;
        [ known_cases Hknown Hn; destruct w as [? ? [?|] ? ? ? ?]; crunch; tac
        | crunch; tac ]
    | |- _ => crunch; tac
    end
  | unfold step;
    lazymatch goal with
    | |- context [pending w !! ?n] =>
        destruct (pending w !! n) as [?|] eqn:Hn;
        [ known_cases Hknown Hn; destruct w as [? ? [?|] ? ? ? ?]; crunch; tac
        | crunch; tac ]
    | |- _ => crunch; tac
    end ].

(** * Properties *)

(** ** The [loadings] array *)

Lemma lookup_array_set_eq (index : nat) (v : bool) (a : list (option bool)) :
  array_set index v a !! index = Some (Some v).
Proof.
  unfold array_set. destruct (decide (index < length a)) as [Hlt | Hge].
  - by apply list_lookup_insert_eq.
  - rewrite lookup_app_r by lia.
    rewrite lookup_app_r by (rewrite length_replicate; lia).
    rewrite length_replicate.
    by replace (index - length a - (index - length a)) with 0 by lia.
Qed.

Lemma array_get_set_eq (index : nat) (v : bool) (a : list (option bool)) :
  array_get (array_set index v a) index = Some v.
Proof. unfold array_get. by rewrite lookup_array_set_eq. Qed.

Lemma array_get_set_ne (index j : nat) (v : bool) (a : list (option bool)) :
  index <> j -> array_get (array_set index v a) j = array_get a j.
Proof.
  intros Hne. unfold array_get, array_set.
  destruct (decide (index < length a)) as [Hlt | Hge].
  - by rewrite list_lookup_insert_ne.
  - destruct (decide (j < length a)) as [Hj | Hj].
    + by rewrite lookup_app_l.
    + rewrite (lookup_ge_None_2 a j) by lia.
      rewrite lookup_app_r by lia.
      destruct (decide (j - length a < index - length a)) as [Hgap | Hgap].
      * rewrite lookup_app_l by (rewrite length_replicate; lia).
        by rewrite lookup_replicate_2.
      * rewrite lookup_ge_None_2; [done|].
        rewrite length_app, length_replicate. simpl. lia.
Qed.

Lemma busy_set_eq (index : nat) (v : bool) (a : list (option bool)) :
  busy (array_set index v a) index = v.
Proof. unfold busy. by rewrite array_get_set_eq. Qed.

Lemma busy_set_ne (index j : nat) (v : bool) (a : list (option bool)) :
  index <> j -> busy (array_set index v a) j = busy a j.
Proof. intros. unfold busy. by rewrite array_get_set_ne. Qed.

(** Unset slots read as [undefined], which is falsy. *)
Lemma busy_unset (a : list (option bool)) (index : nat) :
  a !! index = None \/ a !! index = Some None -> busy a index = false.
Proof. unfold busy, array_get. by intros [-> | ->]. Qed.

(** ** Suspension *)

Lemma exec_pending (a : async unit) (w : world) :
  pending (exec a w) = pending w ++ option_list (suspension a).
Proof.
  revert w. induction a as [u | e | op k IH | req k IH | res k IH]; intros w; cbn.
  - by rewrite app_nil_r.
  - by rewrite app_nil_r.
  - rewrite IH. by destruct op, w as [? ? [?|] ? ? ? ?].
  - done.
  - done.
Qed.

(** The task a call parks is the one its body suspends on: it is the
    last pending task of the world the call leaves. *)
Lemma exec_parks (a : async unit) (w : world) (t : task) :
  suspension a = Some t ->
  pending (exec a w) !! length (pending w) = Some t.
Proof.
  intros Ht. rewrite exec_pending, Ht. cbn.
  rewrite lookup_app_r by lia. by rewrite Nat.sub_diag.
Qed.

Lemma fetchFileList_suspension (o : summary) :
  exists k, suspension (fetchFileList o) = Some (WaitFetch (files_request (id o)) k).
Proof. by eexists. Qed.

Lemma approve_mr_suspension (index : nat) (mr_id : jsval) :
  exists k, suspension (approve_mr index mr_id)
            = Some (WaitFetch (merge_request mr_id) k).
Proof. by eexists. Qed.

(** ** [approve_mr] *)

(** C1.  When the POST of [approve_mr index id] yields a response object,
    whatever its status code: the slot [index], set busy by the call, is
    cleared; [router.refresh()] is called exactly once when [res.ok] and
    not at all otherwise; nothing is thrown, no rejection is left
    unhandled, the error cell is not written and no further request is
    made. *)
Theorem approve_mr_response (index : nat) (mr_id : jsval)
    (w : world) (n : nat) (res : Response) :
  crashed w = None ->
  pending w !! n = suspension (approve_mr index mr_id) ->
  let w0 := exec (approve_mr index mr_id) w in
  let w' := step (Settle n (Resolved res)) w in
  (array_get (loadings (st w0)) index = Some true /\
   requests w0 = requests w ++ [merge_request mr_id]) /\
  array_get (loadings (st w')) index = Some false /\
  refreshes w' = refreshes w + (if ok res then 1 else 0) /\
  unhandled w' = unhandled w /\
  crashed w' = None /\
  error (st w') = error (st w) /\
  filedata (st w') = filedata (st w) /\
  requests w' = requests w /\
  pending w' = delete n (pending w).
Proof.
  intros Hc Hn.
  destruct w as [mr s c pend reqs r u]; simpl in Hc, Hn; subst c.
  split.
  { cbn. by rewrite array_get_set_eq. }
  cbn in Hn |- *. rewrite Hn. cbn.
  destruct (ok res); cbn; rewrite array_get_set_eq;
    repeat split; try done; lia.
Qed.

(** The theorem at work: merge request 7, clicked, answered with a 500. *)
Lemma approve_mr_response_witness :
  let mr := PObj {| ref := 1; id := VNum 7; status := VStr "open" |} in
  let w := run [Render mr; Click] init in
  let w' := step (Settle 1 (Resolved {| http_status := 500 |})) w in
  array_get (loadings (st w')) 1 = Some false /\ refreshes w' = 0.
Proof.
  cbv zeta.
  pose proof (approve_mr_response 1 (VNum 7)
    (run [Render (PObj {| ref := 1; id := VNum 7; status := VStr "open" |}); Click] init)
    1 {| http_status := 500 |} eq_refl eq_refl) as H.
  cbv zeta in H.
  destruct H as (_ & Hslot & Hrefresh & _).
  exact (conj Hslot Hrefresh).
Defined.

(** ** [fetchFileList] *)

(** C2.  When the GET of [fetchFileList] rejects, the thrown value is
    stored in the error cell, the file list is left as it was (the empty
    array on the first load), slot 2 is cleared by the [finally] block and
    nothing escapes: no rejection is left unhandled and the component
    stays mounted.  No second request is made. *)
Theorem fetchFileList_rejected (o : summary) (w : world) (n : nat) (e : js_error) :
  crashed w = None ->
  pending w !! n = suspension (fetchFileList o) ->
  let w' := step (Settle n (Rejected e)) w in
  error (st w') = Some e /\
  filedata (st w') = filedata (st w) /\
  array_get (loadings (st w')) 2 = Some false /\
  unhandled w' = unhandled w /\
  crashed w' = None /\
  requests w' = requests w /\
  pending w' = delete n (pending w) /\
  (truthy (id o) = true ->
   filedata (st (run [Render (PObj o); Settle 0 (Rejected e)] init)) = VArr []).
Proof.
  intros Hc Hn.
  destruct w as [mr s c pend reqs r u]; simpl in Hc, Hn; subst c.
  cbn in Hn |- *. rewrite Hn. cbn. rewrite array_get_set_eq.
  repeat split; try done.
  intros ->. reflexivity.
Qed.

Lemma fetchFileList_rejected_witness :
  let mr := {| ref := 1; id := VNum 7; status := VStr "open" |} in
  let w' := run [Render (PObj mr); Settle 0 (Rejected (TypeError "Failed to fetch"))] init in
  error (st w') = Some (TypeError "Failed to fetch") /\
  filedata (st w') = VArr [] /\
  array_get (loadings (st w')) 2 = Some false /\
  unhandled w' = [].
Proof.
  cbv zeta.
  pose proof (fetchFileList_rejected
    {| ref := 1; id := VNum 7; status := VStr "open" |}
    (run [Render (PObj {| ref := 1; id := VNum 7; status := VStr "open" |})] init)
    0 (TypeError "Failed to fetch") eq_refl eq_refl) as H.
  cbv zeta in H.
  destruct H as (Herr & Hfiles & Hslot & Hun & _).
  exact (conj Herr (conj Hfiles (conj Hslot Hun))).
Defined.

(** C5.  When the GET resolves and its body parses to a value whose
    [data.data] is the array [xs], the file list becomes [xs] as a whole,
    and the list control of every later render shows one entry per element
    of [xs], in the order of [xs]. *)
Theorem fetchFileList_success (o : summary) (res : Response) (body data : jsval)
    (xs : list jsval) (w : world) (n : nat) :
  crashed w = None ->
  pending w !! n = suspension (fetchFileList o) ->
  get_data body = inr data ->
  get_data data = inr (VArr xs) ->
  let w1 := step (Settle n (Resolved res)) w in
  (exists k,
     suspension (after_fetch (fetchFileList o) (Resolved res)) = Some (WaitJson res k) /\
     pending w1 = delete n (pending w) ++ [WaitJson res k] /\
     st w1 = st w) /\
  forall (w2 : world) (m : nat),
    crashed w2 = None ->
    pending w2 !! m = suspension (after_fetch (fetchFileList o) (Resolved res)) ->
    let w3 := step (SettleJson m (JsonResolved body)) w2 in
    filedata (st w3) = VArr xs /\
    (forall o' : summary, exists v : view,
       render (PObj o') (st w3) = inr v /\
       list_entries (list_dataSource v) = Some (map ListItem xs)) /\
    array_get (loadings (st w3)) 2 = Some false /\
    error (st w3) = error (st w2) /\
    unhandled w3 = unhandled w2.
Proof.
  intros Hc Hn Hbody Hdata. split.
  - destruct w as [mr s c pend reqs r u]; simpl in Hc, Hn; subst c.
    eexists. split; [reflexivity|].
    cbn in Hn |- *. rewrite Hn. by cbn.
  - intros [mr s c pend reqs r u] m Hc2 Hm; simpl in Hc2, Hm; subst c.
    cbn in Hm |- *. rewrite Hm. cbn.
    rewrite Hbody. cbn. rewrite Hdata. cbn.
    rewrite array_get_set_eq. repeat split; try done.
    intros o'. eexists. split; reflexivity.
Qed.

(** The body [{data: {data: ["a.txt", "b.txt"]}}] gives exactly those two
    entries, in that order. *)
Lemma fetchFileList_success_witness :
  let mr := {| ref := 1; id := VNum 7; status := VStr "open" |} in
  let body := VObj [("data", VObj [("data", VArr [VStr "a.txt"; VStr "b.txt"])])] in
  let w3 := run [Render (PObj mr); Settle 0 (Resolved {| http_status := 200 |});
                 SettleJson 0 (JsonResolved body)] init in
  option_map list_entries (option_map list_dataSource
      (match render (PObj mr) (st w3) with inr v => Some v | inl _ => None end))
  = Some (Some [ListItem (VStr "a.txt"); ListItem (VStr "b.txt")]).
Proof.
  cbv zeta.
  pose proof (fetchFileList_success
    {| ref := 1; id := VNum 7; status := VStr "open" |}
    {| http_status := 200 |}
    (VObj [("data", VObj [("data", VArr [VStr "a.txt"; VStr "b.txt"])])])
    (VObj [("data", VArr [VStr "a.txt"; VStr "b.txt"])])
    [VStr "a.txt"; VStr "b.txt"]
    (run [Render (PObj {| ref := 1; id := VNum 7; status := VStr "open" |})] init)
    0 eq_refl eq_refl eq_refl eq_refl) as H.
  cbv zeta in H. destruct H as [_ H].
  specialize (H (run [Render (PObj {| ref := 1; id := VNum 7; status := VStr "open" |});
                      Settle 0 (Resolved {| http_status := 200 |})] init)
                0 eq_refl eq_refl).
  cbv zeta in H. destruct H as (_ & H & _).
  destruct (H {| ref := 1; id := VNum 7; status := VStr "open" |}) as (v & Hv & Hentries).
  change (run _ init) with
    (step (SettleJson 0 (JsonResolved
             (VObj [("data", VObj [("data", VArr [VStr "a.txt"; VStr "b.txt"])])])))
       (run [Render (PObj {| ref := 1; id := VNum 7; status := VStr "open" |});
             Settle 0 (Resolved {| http_status := 200 |})] init)).
  rewrite Hv. simpl. by rewrite Hentries.
Defined.

(** C10 does not hold as stated: a body whose [data] member is an object
    without a [data] member throws nothing.  The file list, [[]] before,
    becomes [undefined], and the error cell is not written. *)
Lemma missing_nested_data_is_not_a_failure :
  let mr := PObj {| ref := 1; id := VNum 7; status := VStr "open" |} in
  let before := run [Render mr; Settle 0 (Resolved {| http_status := 200 |})] init in
  let after := step (SettleJson 0 (JsonResolved (VObj [("data", VObj [])]))) before in
  filedata (st before) = VArr [] /\
  filedata (st after) = VUndefined /\
  filedata (st after) <> filedata (st before) /\
  error (st after) = None.
Proof. cbv zeta. repeat split; try reflexivity. discriminate. Qed.

(** C10, amended.  After the GET has resolved:
    - when [res.json()] rejects (the body is not valid JSON), or the parsed
      body is [null], or its [data] member is missing or [null], the value
      thrown is stored in the error cell and the file list is left as it
      was;
    - when the body has a [data] member that is neither [undefined] nor
      [null], nothing is thrown: the file list becomes whatever
      [result.data.data] is ([undefined] when that member is missing) and
      the error cell is not written.
    In every case slot 2 is cleared and no rejection is left unhandled. *)
Theorem fetchFileList_body_shapes (o : summary) (res : Response) (w : world) (n : nat) :
  crashed w = None ->
  pending w !! n = suspension (after_fetch (fetchFileList o) (Resolved res)) ->
  let failed (e : js_error) (w' : world) :=
    error (st w') = Some e /\ filedata (st w') = filedata (st w) /\
    array_get (loadings (st w')) 2 = Some false /\
    unhandled w' = unhandled w /\ crashed w' = None in
  (forall e, failed e (step (SettleJson n (JsonRejected e)) w)) /\
  (forall body e,
     get_data body = inl e ->
     failed e (step (SettleJson n (JsonResolved body)) w)) /\
  (forall body data e,
     get_data body = inr data -> get_data data = inl e ->
     failed e (step (SettleJson n (JsonResolved body)) w)) /\
  (forall body data files,
     get_data body = inr data -> get_data data = inr files ->
     let w' := step (SettleJson n (JsonResolved body)) w in
     filedata (st w') = files /\ error (st w') = error (st w) /\
     array_get (loadings (st w')) 2 = Some false /\
     unhandled w' = unhandled w /\ crashed w' = None).
Proof.
  intros Hc Hn.
  destruct w as [mr s c pend reqs r u]; simpl in Hc, Hn; subst c.
  cbn in Hn. cbv zeta. repeat apply conj.
  - intros e. cbn. rewrite Hn. cbn. by rewrite array_get_set_eq.
  - intros body e Hbody. cbn. rewrite Hn. cbn. rewrite Hbody. cbn.
    by rewrite array_get_set_eq.
  - intros body data e Hbody Hdata. cbn. rewrite Hn. cbn.
    rewrite Hbody. cbn. rewrite Hdata. cbn. by rewrite array_get_set_eq.
  - intros body data files Hbody Hdata. cbn. rewrite Hn. cbn.
    rewrite Hbody. cbn. rewrite Hdata. cbn. by rewrite array_get_set_eq.
Qed.

(** The body [{}]: reading [data] of its missing [data] member throws a
    [TypeError], which is stored. *)
Lemma fetchFileList_body_shapes_witness :
  let mr := PObj {| ref := 1; id := VNum 7; status := VStr "open" |} in
  let w := run [Render mr; Settle 0 (Resolved {| http_status := 200 |})] init in
  let w' := step (SettleJson 0 (JsonResolved (VObj []))) w in
  error (st w')
    = Some (TypeError "Cannot read properties of undefined (reading 'data')") /\
  filedata (st w') = filedata (st w).
Proof.
  cbv zeta.
  pose proof (fetchFileList_body_shapes
    {| ref := 1; id := VNum 7; status := VStr "open" |} {| http_status := 200 |}
    (run [Render (PObj {| ref := 1; id := VNum 7; status := VStr "open" |});
          Settle 0 (Resolved {| http_status := 200 |})] init)
    0 eq_refl eq_refl) as H.
  cbv zeta in H. destruct H as (_ & _ & H & _).
  specialize (H (VObj []) VUndefined
    (TypeError "Cannot read properties of undefined (reading 'data')")
    eq_refl eq_refl).
  destruct H as (Herr & Hfiles & _).
  exact (conj Herr Hfiles).
Defined.

(** ** Rendering *)

(** C6.  For every summary the page renders, and the merge button is in
    the view exactly when the status is the string ["open"]. *)
Theorem merge_button_iff_open (o : summary) (s : state) :
  exists v : view,
    render (PObj o) s = inr v /\
    (is_Some (merge_button v) <-> status o = VStr "open").
Proof.
  eexists. split; [reflexivity|]. cbn.
  destruct (status o) as [ | | b | z | str | xs | ms ]; cbn;
    try (split; [intros [? ?]; discriminate | discriminate]).
  destruct (String.eqb_spec str "open") as [-> | Hne].
  - split; [done | by eexists].
  - split; [intros [? ?]; discriminate | congruence].
Qed.

(** C9 fails on an absent summary: the render reads [mrDetail.status]
    with no guard and throws a [TypeError], which unmounts the page,
    whereas the effect of the same component guards [!mrDetail].  With a
    summary object, with or without an identifier, the page renders and the
    inner panel is titled with [mrDetail.id]. *)
Theorem render_absent_summary_throws :
  (forall s, render PUndefined s
             = inl (TypeError "Cannot read properties of undefined (reading 'status')")) /\
  (forall s, render PNull s
             = inl (TypeError "Cannot read properties of null (reading 'status')")) /\
  crashed (step (Render PUndefined) init)
    = Some (TypeError "Cannot read properties of undefined (reading 'status')") /\
  (forall o s, exists v, render (PObj o) s = inr v /\ panel_title v = id o).
Proof.
  repeat split. intros o s. by eexists.
Qed.

(** ** The effect *)

(** C7.  With no summary ([undefined] or [null]) or a summary whose
    identifier is [undefined] or [null], a render issues no request and
    parks no task; mounted with such a prop, the component has made no
    request at all. *)
Theorem no_identifier_no_fetch (p : props) (w : world) :
  (p = PUndefined \/ p = PNull \/
   exists o, p = PObj o /\ (id o = VUndefined \/ id o = VNull)) ->
  requests (step (Render p) w) = requests w /\
  pending (step (Render p) w) = pending w /\
  requests (run [Render p] init) = [].
Proof.
  intros Hp.
  assert (Heff : effect p = Ret tt).
  { destruct Hp as [-> | [-> | (o & -> & Hid)]]; try reflexivity.
    unfold effect. by destruct Hid as [-> | ->]. }
  assert (Hstep : forall w0, requests (step (Render p) w0) = requests w0 /\
                             pending (step (Render p) w0) = pending w0).
  { intros w0. unfold step. destruct (crashed w0); [done|].
    destruct (render p (st w0)); [done|].
    rewrite Heff. by destruct (deps_changed (mrDetail w0) p). }
  destruct (Hstep w) as [Hr Hq]. repeat split; try done.
  change (run [Render p] init) with (step (Render p) init).
  by destruct (Hstep init) as [-> _].
Qed.

Lemma no_identifier_no_fetch_witness :
  requests (run [Render (PObj {| ref := 1; id := VUndefined; status := VStr "open" |})] init)
  = [].
Proof.
  refine (proj2 (proj2 (no_identifier_no_fetch
    (PObj {| ref := 1; id := VUndefined; status := VStr "open" |}) init _))).
  right. right. eexists. split; [reflexivity|]. left. reflexivity.
Defined.

(** C8 does not hold as stated: rendered twice with the same summary
    object, the component fetches once. *)
Lemma same_summary_object_fetches_once :
  let mr := PObj {| ref := 1; id := VNum 7; status := VStr "open" |} in
  requests (run [Render mr; Render mr] init) = [files_request (VNum 7)] /\
  length (requests (run [Render mr; Render mr] init)) <> 2.
Proof. cbv zeta. split; [reflexivity | vm_compute; lia]. Qed.

(** C8, amended.  The effect depends on the identity of the summary
    object.  A render with the object of the previous render fetches
    nothing; a render with another object fetches again, also when its
    identifier is the one just fetched: fetches are not deduplicated by
    identifier. *)
Theorem refetch_on_new_summary_object (w : world) (o o' : summary) :
  crashed w = None ->
  mrDetail w = Some (PObj o) ->
  truthy (id o') = true ->
  requests (step (Render (PObj o')) w)
  = requests w ++ (if Nat.eqb (ref o) (ref o') then [] else [files_request (id o')]).
Proof.
  intros Hc Hmr Hid.
  destruct w as [mr s c pend reqs r u]; simpl in Hc, Hmr; subst c mr.
  cbn. destruct (Nat.eqb (ref o) (ref o')); cbn.
  - by rewrite app_nil_r.
  - rewrite Hid. reflexivity.
Qed.

Lemma refetch_on_new_summary_object_witness :
  let a := {| ref := 1; id := VNum 7; status := VStr "open" |} in
  let b := {| ref := 2; id := VNum 7; status := VStr "open" |} in
  requests (run [Render (PObj a); Render (PObj b)] init)
  = [files_request (VNum 7); files_request (VNum 7)].
Proof.
  exact (refetch_on_new_summary_object
    (run [Render (PObj {| ref := 1; id := VNum 7; status := VStr "open" |})] init)
    {| ref := 1; id := VNum 7; status := VStr "open" |}
    {| ref := 2; id := VNum 7; status := VStr "open" |}
    eq_refl eq_refl eq_refl).
Defined.

(** ** One step of a running page *)

Lemma step_render_change (p : props) (w : world) :
  change (Render p) w (step (Render p) w).
Proof.
  destruct w as [mr s [c|] pend reqs r u]; [by apply ch_none|].
  destruct p as [ | | o]; try by apply ch_none.
  cbn. destruct (deps_changed mr (PObj o)); [|by apply ch_none].
  cbn. destruct (truthy (id o)); cbn; [|by apply ch_none].
  eapply ch_files_start; [by exists o | done | done].
Qed.

Lemma step_click_change (w : world) :
  change Click w (step Click w).
Proof.
  destruct w as [mr s [c|] pend reqs r u]; [by apply ch_none|].
  destruct mr as [[ | | o]|]; try by apply ch_none.
  unfold step, clickable. cbn.
  destruct (strict_eq_str (status o) "open"); cbn; [|by apply ch_none].
  destruct (array_get (loadings s) 1) as [[|]|] eqn:Hslot; cbn;
    try by apply ch_none.
  - eapply ch_merge_start; try done; [|by exists (id o)].
    unfold busy. cbn. by rewrite Hslot.
  - eapply ch_merge_start; try done; [|by exists (id o)].
    unfold busy. cbn. by rewrite Hslot.
Qed.

Lemma step_settle_change (n : nat) (o : fetch_outcome) (w : world) :
  Forall known_task (pending w) ->
  change (Settle n o) w (step (Settle n o) w).
Proof.
  intros Hknown. unfold step.
  destruct (pending w !! n) as [t|] eqn:Hn; [|by apply ch_none].
  pose proof (Forall_lookup_1 _ _ _ _ Hknown Hn) as [Hf | [Hj | Hm]].
  - pose proof Hf as [mr Hmr]. cbn in Hmr. injection Hmr as <-.
    destruct w as [m s c pend reqs r u]; cbn in Hn.
    destruct o as [err | res].
    + eapply ch_files_rejected; [done | exact Hn | exact Hf | | ];
        destruct c; cbn; auto.
    + eapply ch_files_resolved; [done | exact Hn | exact Hf | | | ];
        [by exists mr, res | by destruct c | by destruct c ].
  - destruct Hj as (mr & res & Hj). cbn in Hj. injection Hj as <-.
    by apply ch_none.
  - pose proof Hm as [mr_id Hid]. cbn in Hid. injection Hid as <-.
    destruct w as [m s c pend reqs r u]; cbn in Hn.
    eapply ch_merge_settled; [done | exact Hn | exact Hm | | ].
    + destruct o as [err | res]; cbn; [auto|].
      destruct (ok res), c; cbn; auto.
    + destruct o as [err | res]; cbn; [done|].
      by destruct (ok res), c.
Qed.

Lemma step_settle_json_change (n : nat) (o : json_outcome) (w : world) :
  Forall known_task (pending w) ->
  change (SettleJson n o) w (step (SettleJson n o) w).
Proof.
  intros Hknown. unfold step.
  destruct (pending w !! n) as [t|] eqn:Hn; [|by apply ch_none].
  pose proof (Forall_lookup_1 _ _ _ _ Hknown Hn) as [Hf | [Hj | Hm]].
  - destruct Hf as [mr Hmr]. cbn in Hmr. injection Hmr as <-. by apply ch_none.
  - pose proof Hj as (mr & res & Hres). cbn in Hres. injection Hres as <-.
    destruct w as [m s c pend reqs r u]; cbn in Hn.
    eapply ch_json_settled; [done | exact Hn | exact Hj | | ].
    + destruct o as [err | body]; cbn; [destruct c; cbn; auto|].
      destruct (get_data body) as [err | data]; cbn; [destruct c; cbn; auto|].
      destruct (get_data data) as [err | files]; cbn; destruct c; cbn; auto.
    + destruct o as [err | body]; cbn; [by destruct c|].
      destruct (get_data body) as [err | data]; cbn; [by destruct c|].
      destruct (get_data data) as [err | files]; cbn; by destruct c.
  - destruct Hm as [mr_id Hid]. cbn in Hid. injection Hid as <-. by apply ch_none.
Qed.

Lemma step_change (e : event) (w : world) :
  Forall known_task (pending w) -> change e w (step e w).
Proof.
  intros Hknown. destruct e as [p | | n o | n o].
  - apply step_render_change.
  - apply step_click_change.
  - by apply step_settle_change.
  - by apply step_settle_json_change.
Qed.

(** ** Invariants of a running page *)

Lemma files_task_not_merge (t : task) : files_task t -> is_merge t = false.
Proof. intros [o H]. cbn in H. by injection H as <-. Qed.

Lemma json_task_not_merge (t : task) : json_task t -> is_merge t = false.
Proof. intros (o & res & H). cbn in H. by injection H as <-. Qed.

Lemma merge_task_is_merge (t : task) : merge_task t -> is_merge t = true.
Proof. intros [mr_id H]. cbn in H. by injection H as <-. Qed.

Lemma merges_snoc (l : list task) (t : task) :
  merges (l ++ [t]) = merges l + (if is_merge t then 1 else 0).
Proof.
  unfold merges. rewrite List.filter_app, length_app. cbn.
  by destruct (is_merge t).
Qed.

Lemma merges_cons (a : task) (l : list task) :
  merges (a :: l) = (if is_merge a then 1 else 0) + merges l.
Proof. unfold merges. cbn. by destruct (is_merge a). Qed.

Lemma merges_delete (l : list task) (n : nat) (t : task) :
  l !! n = Some t ->
  merges l = merges (delete n l) + (if is_merge t then 1 else 0).
Proof.
  revert n. induction l as [|a l IH]; intros [|n] Hn; try discriminate.
  - cbn in Hn. injection Hn as ->.
    change (delete 0 (t :: l)) with l. rewrite merges_cons. lia.
  - cbn in Hn. change (delete (S n) (a :: l)) with (a :: delete n l).
    rewrite !merges_cons, (IH n Hn). lia.
Qed.

Lemma known_snoc (l : list task) (t : task) :
  Forall known_task l -> known_task t -> Forall known_task (l ++ [t]).
Proof. intros Hl Ht. apply Forall_app. split; [done | by constructor]. Qed.

Lemma Inv_init : Inv init.
Proof. split; cbn; [constructor | lia | discriminate]. Qed.

Lemma Inv_step (e : event) (w : world) : Inv w -> Inv (step e w).
Proof.
  intros [Hknown Hone Hbusy].
  destruct (step_change e w Hknown)
    as [ Hst Hp _
       | t Ht Hl Hp
       | t _ Hfree Ht Hl Hp
       | n res t t2 _ Hn Ht Ht2 Hl Hp
       | n err t _ Hn Ht Hl Hp
       | n o t _ Hn Ht Hl Hp
       | n o t _ Hn Ht Hl Hp ].
  - split; rewrite ?Hst, Hp; done.
  - split; rewrite Hp, ?Hl.
    + apply known_snoc; [done | by left].
    + rewrite merges_snoc, (files_task_not_merge t Ht). lia.
    + rewrite merges_snoc, (files_task_not_merge t Ht), Nat.add_0_r.
      intros H. by rewrite array_get_set_ne; [apply Hbusy|].
  - assert (merges (pending w) = 0) as Hzero.
    { destruct (decide (merges (pending w) = 1)) as [H1 | H1]; [|lia].
      apply Hbusy in H1. unfold busy in Hfree. by rewrite H1 in Hfree. }
    split; rewrite Hp, ?Hl.
    + apply known_snoc; [done | by right; right].
    + rewrite merges_snoc, (merge_task_is_merge t Ht). lia.
    + intros _. apply array_get_set_eq.
  - pose proof (merges_delete _ _ _ Hn) as Hd.
    rewrite (files_task_not_merge t Ht) in Hd.
    split; rewrite Hp, ?Hl.
    + apply known_snoc; [by apply Forall_delete | by right; left].
    + rewrite merges_snoc, (json_task_not_merge t2 Ht2). lia.
    + rewrite merges_snoc, (json_task_not_merge t2 Ht2). intros H. apply Hbusy. lia.
  - pose proof (merges_delete _ _ _ Hn) as Hd.
    rewrite (files_task_not_merge t Ht) in Hd.
    split; rewrite Hp.
    + by apply Forall_delete.
    + lia.
    + intros H. destruct Hl as [-> | ->];
        rewrite ?array_get_set_ne by done; apply Hbusy; lia.
  - pose proof (merges_delete _ _ _ Hn) as Hd.
    rewrite (json_task_not_merge t Ht) in Hd.
    split; rewrite Hp.
    + by apply Forall_delete.
    + lia.
    + intros H. destruct Hl as [-> | ->];
        rewrite ?array_get_set_ne by done; apply Hbusy; lia.
  - pose proof (merges_delete _ _ _ Hn) as Hd.
    rewrite (merge_task_is_merge t Ht) in Hd.
    split; rewrite Hp.
    + by apply Forall_delete.
    + lia.
    + intros H. lia.
Qed.

Lemma Inv_run (es : list event) (w : world) : Inv w -> Inv (run es w).
Proof.
  revert w. induction es as [|e es IH]; intros w Hw; [done|].
  cbn. apply IH. by apply Inv_step.
Qed.

Lemma reachable_Inv (w : world) : reachable w -> Inv w.
Proof. intros [es ->]. apply Inv_run, Inv_init. Qed.

Lemma Stuck_step (e : event) (w : world) : Stuck w -> Stuck (step e w).
Proof.
  intros [Hknown Hnone Hbusy].
  destruct (step_change e w Hknown)
    as [ Hst Hp _
       | t Ht Hl Hp
       | t _ Hfree Ht Hl Hp
       | n res t t2 _ Hn Ht Ht2 Hl Hp
       | n err t _ Hn Ht Hl Hp
       | n o t _ Hn Ht Hl Hp
       | n o t _ Hn Ht Hl Hp ].
  - split; rewrite ?Hst, ?Hp; done.
  - split; rewrite ?Hp, ?Hl.
    + apply known_snoc; [done | by left].
    + rewrite merges_snoc, (files_task_not_merge t Ht). lia.
    + by rewrite array_get_set_ne.
  - unfold busy in Hfree. by rewrite Hbusy in Hfree.
  - pose proof (merges_delete _ _ _ Hn) as Hd.
    split; rewrite ?Hp, ?Hl.
    + apply known_snoc; [by apply Forall_delete | by right; left].
    + rewrite merges_snoc, (json_task_not_merge t2 Ht2). lia.
    + done.
  - pose proof (merges_delete _ _ _ Hn) as Hd.
    split; rewrite ?Hp.
    + by apply Forall_delete.
    + lia.
    + destruct Hl as [-> | ->]; rewrite ?array_get_set_ne by done; done.
  - pose proof (merges_delete _ _ _ Hn) as Hd.
    split; rewrite ?Hp.
    + by apply Forall_delete.
    + lia.
    + destruct Hl as [-> | ->]; rewrite ?array_get_set_ne by done; done.
  - pose proof (merges_delete _ _ _ Hn) as Hd.
    rewrite (merge_task_is_merge t Ht) in Hd. lia.
Qed.

Lemma Stuck_run (es : list event) (w : world) : Stuck w -> Stuck (run es w).
Proof.
  revert w. induction es as [|e es IH]; intros w Hw; [done|].
  cbn. apply IH. by apply Stuck_step.
Qed.

(** ** The merge that throws *)

(** C4.  The button is the only caller of [approve_mr], with slot 1, and
    it takes no click while its [loading] prop, [loadings[1]], is set.  When
    the POST of such a call rejects, the rejection is thrown out of
    [approve_mr] and left unhandled, nothing of the state is touched, no
    refresh is requested, and slot 1 stays busy after every further
    sequence of events. *)
Theorem approve_mr_rejected_stays_busy (w : world) (n : nat) (mr_id : jsval)
    (e : js_error) :
  reachable w ->
  pending w !! n = suspension (approve_mr 1 mr_id) ->
  let w' := step (Settle n (Rejected e)) w in
  unhandled w' = unhandled w ++ [e] /\
  st w' = st w /\
  refreshes w' = refreshes w /\
  forall es : list event, array_get (loadings (st (run es w'))) 1 = Some true.
Proof.
  intros Hreach Hn. cbv zeta.
  destruct (reachable_Inv w Hreach) as [Hknown Hone Hbusy].
  assert (Hstep : unhandled (step (Settle n (Rejected e)) w) = unhandled w ++ [e] /\
                  st (step (Settle n (Rejected e)) w) = st w /\
                  refreshes (step (Settle n (Rejected e)) w) = refreshes w /\
                  pending (step (Settle n (Rejected e)) w) = delete n (pending w)).
  { destruct w as [m s c pend reqs r u]. cbn in Hn |- *. by rewrite Hn. }
  destruct Hstep as (Hu & Hst & Hr & Hp).
  repeat split; try done.
  intros es. apply stuck_busy, Stuck_run.
  cbn in Hn.
  pose proof (merges_delete _ _ _ Hn) as Hd. cbn in Hd.
  split; rewrite ?Hp, ?Hst.
  - by apply Forall_delete.
  - lia.
  - apply Hbusy. lia.
Qed.

(** Merge request 7: the click, the network failure, and three more
    clicks. *)
Lemma approve_mr_rejected_stays_busy_witness :
  let mr := PObj {| ref := 1; id := VNum 7; status := VStr "open" |} in
  let w' := run [Render mr; Click; Settle 1 (Rejected (TypeError "Failed to fetch"))] init in
  unhandled w' = [TypeError "Failed to fetch"] /\
  array_get (loadings (st (run [Click; Click; Click] w'))) 1 = Some true.
Proof.
  cbv zeta.
  pose proof (approve_mr_rejected_stays_busy
    (run [Render (PObj {| ref := 1; id := VNum 7; status := VStr "open" |}); Click] init)
    1 (VNum 7) (TypeError "Failed to fetch")
    (ex_intro _ [Render (PObj {| ref := 1; id := VNum 7; status := VStr "open" |}); Click]
       eq_refl)
    eq_refl) as H.
  cbv zeta in H. destruct H as (Hu & _ & _ & Hbusy).
  exact (conj Hu (Hbusy [Click; Click; Click])).
Defined.

(** ** Slot 2 *)

Lemma busy_2_kept (e : event) (w : world) :
  reachable w ->
  busy (loadings (st w)) 2 = true ->
  ~ settles_file_list e w ->
  busy (loadings (st (step e w))) 2 = true.
Proof.
  intros Hreach Hbusy Hnot.
  destruct (step_change e w (inv_known w (reachable_Inv w Hreach)))
    as [ Hst Hp _
       | t Ht Hl Hp
       | t _ Hfree Ht Hl Hp
       | n res t t2 -> Hn Ht Ht2 Hl Hp
       | n err t -> Hn Ht Hl Hp
       | n o t -> Hn Ht Hl Hp
       | n o t _ Hn Ht Hl Hp ].
  - by rewrite Hst.
  - rewrite Hl. apply busy_set_eq.
  - rewrite Hl. by rewrite busy_set_ne.
  - destruct Hnot. by exists t.
  - destruct Hnot. by exists t.
  - destruct Hnot. by exists t.
  - destruct Hl as [-> | ->]; [done | by rewrite busy_set_ne].
Qed.

(** C3 does not hold as stated: with two fetches in flight, the first to
    complete clears slot 2 while the second is still pending. *)
Lemma overlapping_fetch_clears_slot_2 :
  let a := {| ref := 1; id := VNum 7; status := VStr "open" |} in
  let b := {| ref := 2; id := VNum 8; status := VStr "open" |} in
  let w := run [Render (PObj a); Render (PObj b);
                Settle 0 (Rejected (TypeError "Failed to fetch"))] init in
  pending w !! 0 = suspension (fetchFileList b) /\
  map task_request (pending w) = [Some (files_request (VNum 8))] /\
  array_get (loadings (st w)) 2 = Some false /\
  busy (loadings (st w)) 2 = false.
Proof. cbv zeta. repeat split. Qed.

(** C3, amended.  [fetchFileList] sets slot 2 busy and then issues its
    request.  The slot stays busy over every event that does not complete
    a step of a file-list fetch, and every completion of a file-list
    fetch, by a rejected [fetch], by a rejected [res.json()] or by a parsed
    body, clears it: with a single fetch in flight the slot is busy exactly
    from its start to its completion, and with several the first
    completion clears it.  Slots never set read as falsy. *)
Theorem slot_2_busy_until_a_fetch_completes (o : summary) :
  (exists k, fetchFileList o
             = Do (SetLoadings (fun prevLoadings => array_set 2 true prevLoadings))
                  (AwaitFetch (files_request (id o)) k)) /\
  (forall w, crashed w = None ->
     busy (loadings (st (exec (fetchFileList o) w))) 2 = true) /\
  (forall w e,
     reachable w -> busy (loadings (st w)) 2 = true -> ~ settles_file_list e w ->
     busy (loadings (st (step e w))) 2 = true) /\
  (forall w n,
     crashed w = None -> pending w !! n = suspension (fetchFileList o) ->
     (forall err, busy (loadings (st (step (Settle n (Rejected err)) w))) 2 = false) /\
     (forall res, loadings (st (step (Settle n (Resolved res)) w)) = loadings (st w))) /\
  (forall w n res out,
     crashed w = None ->
     pending w !! n = suspension (after_fetch (fetchFileList o) (Resolved res)) ->
     busy (loadings (st (step (SettleJson n out) w))) 2 = false) /\
  (forall i, busy (loadings initial_state) i = false) /\
  (forall a i, a !! i = None \/ a !! i = Some None -> busy a i = false).
Proof.
  repeat apply conj.
  - by eexists.
  - intros [m s c pend reqs r u] Hc; simpl in Hc; subst c. cbn. apply busy_set_eq.
  - intros w e. apply busy_2_kept.
  - intros [m s c pend reqs r u] n Hc Hn; simpl in Hc, Hn; subst c.
    cbn in Hn. split.
    + intros err. cbn. rewrite Hn. cbn. apply busy_set_eq.
    + intros res. cbn. by rewrite Hn.
  - intros [m s c pend reqs r u] n res out Hc Hn; simpl in Hc, Hn; subst c.
    cbn in Hn |- *. rewrite Hn. destruct out as [err | body]; cbn.
    + apply busy_set_eq.
    + destruct (get_data body) as [err | data]; cbn; [apply busy_set_eq|].
      destruct (get_data data) as [err | files]; cbn; apply busy_set_eq.
  - intros i. unfold busy, array_get. cbn. by rewrite lookup_nil.
  - intros a i. apply busy_unset.
Qed.

(** One fetch for merge request 7: busy once started, still busy after a
    click on the merge button, free once the fetch has failed. *)
Lemma slot_2_busy_until_a_fetch_completes_witness :
  let mr := {| ref := 1; id := VNum 7; status := VStr "open" |} in
  let w := run [Render (PObj mr)] init in
  busy (loadings (st w)) 2 = true /\
  busy (loadings (st (step Click w))) 2 = true /\
  busy (loadings (st (step (Settle 0 (Rejected (TypeError "Failed to fetch"))) w))) 2 = false.
Proof.
  cbv zeta.
  destruct (slot_2_busy_until_a_fetch_completes
              {| ref := 1; id := VNum 7; status := VStr "open" |})
    as (_ & Hstart & Hkeep & Hfetch & _).
  refine (conj (Hstart (commit (PObj {| ref := 1; id := VNum 7; status := VStr "open" |}) init)
                  eq_refl) (conj _ _)).
  - apply Hkeep.
    + exists [Render (PObj {| ref := 1; id := VNum 7; status := VStr "open" |})].
      reflexivity.
    + reflexivity.
    + simpl. intros [].
  - exact (proj1 (Hfetch
      (run [Render (PObj {| ref := 1; id := VNum 7; status := VStr "open" |})] init)
      0 eq_refl eq_refl) (TypeError "Failed to fetch")).
Defined.

(** * Further properties of the page *)

(** ** Traces *)

Lemma run_snoc (es : list event) (e : event) (w : world) :
  run (es ++ [e]) w = step e (run es w).
Proof. revert w. induction es as [|e' es IH]; intros w; [done | apply IH]. Qed.

Lemma reachable_step (e : event) (w : world) : reachable w -> reachable (step e w).
Proof. intros [es ->]. exists (es ++ [e]). by rewrite run_snoc. Qed.

Lemma reachable_known (w : world) : reachable w -> Forall known_task (pending w).
Proof. intros H. apply inv_known, reachable_Inv, H. Qed.

(** ** The effect and falsy identifiers *)

(** X1.  A render with a summary object fetches the file list exactly
    when React runs the effect (mount, or another object than the last
    render's) and the identifier is truthy.  An identifier that is defined
    but falsy, [0] or the empty string, is never fetched. *)
Theorem effect_fetches_iff_truthy_id (w : world) (o : summary) :
  crashed w = None ->
  let fetched := deps_changed (mrDetail w) (PObj o) && truthy (id o) in
  let w' := step (Render (PObj o)) w in
  requests w' = requests w ++ (if fetched then [files_request (id o)] else []) /\
  length (pending w') = length (pending w) + (if fetched then 1 else 0) /\
  (id o = VNum 0 \/ id o = VStr "" -> requests w' = requests w).
Proof.
  intros Hc. destruct w as [mr s c pend reqs r u]; simpl in Hc; subst c. cbn.
  assert (Hfalsy : id o = VNum 0 \/ id o = VStr "" -> truthy (id o) = false).
  { by intros [-> | ->]. }
  destruct (deps_changed mr (PObj o)); cbn.
  - destruct (truthy (id o)) eqn:Hid; cbn.
    + rewrite length_app. cbn. repeat split; try done.
      intros H. apply Hfalsy in H. congruence.
    + rewrite app_nil_r, Nat.add_0_r. done.
  - rewrite app_nil_r, Nat.add_0_r. done.
Qed.

Lemma effect_fetches_iff_truthy_id_witness :
  requests (run [Render (PObj {| ref := 1; id := VNum 0; status := VStr "open" |})] init)
  = [].
Proof.
  refine (proj2 (proj2 (effect_fetches_iff_truthy_id init
    {| ref := 1; id := VNum 0; status := VStr "open" |} eq_refl)) _).
  left. reflexivity.
Defined.

(** ** Refreshes *)

(** X2.  [router.refresh()] is called by one thing only: a response with
    [res.ok] to a merge request.  Every other event, the file-list fetch
    included, leaves the count of refreshes as it is. *)
Theorem refresh_only_on_ok_merge (w : world) (e : event) :
  reachable w ->
  refreshes (step e w)
  = refreshes w +
    match e with
    | Settle n (Resolved res) =>
        match pending w !! n with
        | Some t => if is_merge t && ok res then 1 else 0
        | None => 0
        end
    | _ => 0
    end.
Proof.
  intros Hreach. pose proof (reachable_known w Hreach) as Hknown. clear Hreach.
  step_cases e w Hknown ltac:(lia).
Qed.

Lemma refresh_only_on_ok_merge_witness :
  let mr := PObj {| ref := 1; id := VNum 7; status := VStr "open" |} in
  refreshes (run [Render mr; Click; Settle 1 (Resolved {| http_status := 204 |})] init) = 1.
Proof.
  exact (refresh_only_on_ok_merge
    (run [Render (PObj {| ref := 1; id := VNum 7; status := VStr "open" |}); Click] init)
    (Settle 1 (Resolved {| http_status := 204 |}))
    (ex_intro _ [Render (PObj {| ref := 1; id := VNum 7; status := VStr "open" |}); Click]
       eq_refl)).
Defined.

(** ** The error cell *)

Lemma error_kept_by_step (w : world) (e : event) :
  Forall known_task (pending w) ->
  is_Some (error (st w)) -> is_Some (error (st (step e w))).
Proof.
  intros Hknown Herr.
  step_cases e w Hknown ltac:(first [done | by eexists]).
Qed.

(** X3.  Nothing resets the error cell: once a file-list fetch has
    failed, the cell holds an error after every further sequence of
    events, a later successful fetch included. *)
Theorem error_is_never_cleared (w : world) (es : list event) :
  reachable w ->
  is_Some (error (st w)) ->
  is_Some (error (st (run es w))).
Proof.
  revert w. induction es as [|e es IH]; intros w Hreach Herr; [done|].
  cbn. apply IH; [by apply reachable_step|].
  by apply error_kept_by_step; [apply reachable_known|].
Qed.

Lemma error_is_never_cleared_witness :
  let a := PObj {| ref := 1; id := VNum 7; status := VStr "open" |} in
  let b := PObj {| ref := 2; id := VNum 7; status := VStr "open" |} in
  let body := VObj [("data", VObj [("data", VArr [VStr "a.txt"])])] in
  is_Some (error (st (run [Render b; Settle 0 (Resolved {| http_status := 200 |});
                           SettleJson 0 (JsonResolved body)]
                        (run [Render a; Settle 0 (Rejected (TypeError "Failed to fetch"))]
                           init)))).
Proof.
  cbv zeta.
  refine (error_is_never_cleared
    (run [Render (PObj {| ref := 1; id := VNum 7; status := VStr "open" |});
          Settle 0 (Rejected (TypeError "Failed to fetch"))] init)
    _ (ex_intro _ _ eq_refl) _).
  exists (TypeError "Failed to fetch"). reflexivity.
Defined.

(** ** The response to the file-list GET *)

Lemma delete_snoc (l : list task) (t : task) : delete (length l) (l ++ [t]) = l.
Proof.
  induction l as [|a l IH]; [done|].
  change (delete (length (a :: l)) ((a :: l) ++ [t]))
    with (a :: delete (length l) (l ++ [t])).
  by rewrite IH.
Qed.

(** X4.  [fetchFileList] never looks at the status of the response: the
    body is read and stored in the same way whether the GET is answered
    with a 2xx or not. *)
Theorem fetchFileList_ignores_status (o : summary) (w : world) (n : nat)
    (res res' : Response) (out : json_outcome) :
  pending w !! n = suspension (fetchFileList o) ->
  let m := length (pending w) - 1 in
  let w1 := run [Settle n (Resolved res); SettleJson m out] w in
  let w2 := run [Settle n (Resolved res'); SettleJson m out] w in
  st w1 = st w2 /\ pending w1 = pending w2 /\ requests w1 = requests w2 /\
  refreshes w1 = refreshes w2 /\ unhandled w1 = unhandled w2.
Proof.
  intros Hn.
  assert (Hlen : length (delete n (pending w)) = length (pending w) - 1).
  { apply length_delete. rewrite Hn. by eexists. }
  destruct w as [mr s c pend reqs r u]. cbn in Hn, Hlen |- *.
  rewrite Hn. cbn. rewrite <- Hlen.
  rewrite !lookup_app_r by lia. rewrite Nat.sub_diag.
  destruct c; crunch; by rewrite !delete_snoc.
Qed.

Lemma fetchFileList_ignores_status_witness :
  let mr := PObj {| ref := 1; id := VNum 7; status := VStr "open" |} in
  let body := JsonResolved (VObj [("data", VObj [("data", VArr [VStr "a.txt"])])]) in
  st (run [Render mr; Settle 0 (Resolved {| http_status := 404 |}); SettleJson 0 body] init)
  = st (run [Render mr; Settle 0 (Resolved {| http_status := 200 |}); SettleJson 0 body] init).
Proof.
  exact (proj1 (fetchFileList_ignores_status
    {| ref := 1; id := VNum 7; status := VStr "open" |}
    (run [Render (PObj {| ref := 1; id := VNum 7; status := VStr "open" |})] init)
    0 {| http_status := 404 |} {| http_status := 200 |}
    (JsonResolved (VObj [("data", VObj [("data", VArr [VStr "a.txt"])])]))
    eq_refl)).
Defined.

(** X5.  A fetch in flight is not cancelled when another summary
    arrives, and the file list belongs to whichever body is read last:
    when the answer for the first summary comes after the answer for the
    second, the page shows the second summary with the files of the
    first. *)
Theorem stale_response_overwrites (a b : summary) (resA resB : Response)
    (bodyA bodyB dataA : jsval) (filesA : list jsval) :
  truthy (id a) = true ->
  truthy (id b) = true ->
  ref a <> ref b ->
  get_data bodyA = inr dataA ->
  get_data dataA = inr (VArr filesA) ->
  let w := run [Render (PObj a); Render (PObj b);
                Settle 1 (Resolved resB); SettleJson 1 (JsonResolved bodyB);
                Settle 0 (Resolved resA); SettleJson 0 (JsonResolved bodyA)] init in
  mrDetail w = Some (PObj b) /\
  filedata (st w) = VArr filesA /\
  pending w = [] /\
  requests w = [files_request (id a); files_request (id b)].
Proof.
  intros Ha Hb Hab HbodyA HdataA. cbn.
  rewrite Ha. cbn.
  apply Nat.eqb_neq in Hab. rewrite Hab. cbn. rewrite Hb. cbn.
  destruct (get_data bodyB) as [err | dataB]; cbn.
  - rewrite HbodyA. cbn. rewrite HdataA. cbn. done.
  - destruct (get_data dataB) as [err | filesB]; cbn;
      rewrite HbodyA; cbn; rewrite HdataA; cbn; done.
Qed.

Lemma stale_response_overwrites_witness :
  let a := {| ref := 1; id := VNum 7; status := VStr "open" |} in
  let b := {| ref := 2; id := VNum 8; status := VStr "open" |} in
  let body xs := VObj [("data", VObj [("data", VArr xs)])] in
  let ok200 := {| http_status := 200 |} in
  filedata (st (run [Render (PObj a); Render (PObj b);
                     Settle 1 (Resolved ok200); SettleJson 1 (JsonResolved (body [VStr "b.txt"]));
                     Settle 0 (Resolved ok200); SettleJson 0 (JsonResolved (body [VStr "a.txt"]))]
                  init))
  = VArr [VStr "a.txt"].
Proof.
  cbv zeta.
  refine (proj1 (proj2 (stale_response_overwrites
    {| ref := 1; id := VNum 7; status := VStr "open" |}
    {| ref := 2; id := VNum 8; status := VStr "open" |}
    {| http_status := 200 |} {| http_status := 200 |}
    (VObj [("data", VObj [("data", VArr [VStr "a.txt"])])])
    (VObj [("data", VObj [("data", VArr [VStr "b.txt"])])])
    (VObj [("data", VArr [VStr "a.txt"])]) [VStr "a.txt"]
    eq_refl eq_refl _ eq_refl eq_refl))).
  cbn. lia.
Defined.

(** ** The file-list spinner *)

Lemma merges_le_length (l : list task) : merges l <= length l.
Proof.
  induction l as [|a l IH]; [done|]. rewrite merges_cons. cbn.
  destruct (is_merge a); lia.
Qed.

Lemma merges_all (l : list task) :
  Forall (fun t => is_merge t = true) l -> merges l = length l.
Proof.
  induction 1 as [|a l Ha _ IH]; [done|]. rewrite merges_cons, Ha, IH. done.
Qed.

Lemma crashed_kept (w : world) (e : event) :
  Forall known_task (pending w) ->
  crashed (step e w) = None -> crashed w = None.
Proof.
  intros Hknown. step_cases e w Hknown ltac:(done).
Qed.

Lemma files_rejected_clears (w : world) (n : nat) (t : task) (err : js_error) :
  crashed w = None -> pending w !! n = Some t -> files_task t ->
  loadings (st (step (Settle n (Rejected err)) w)) = array_set 2 false (loadings (st w)).
Proof.
  intros Hc Hn [o Ht]. cbn in Ht. injection Ht as <-.
  destruct w as [mr s c pend reqs r u]; simpl in Hc, Hn; subst c.
  cbn. by rewrite Hn.
Qed.

Lemma json_settled_clears (w : world) (n : nat) (t : task) (out : json_outcome) :
  crashed w = None -> pending w !! n = Some t -> json_task t ->
  loadings (st (step (SettleJson n out) w)) = array_set 2 false (loadings (st w)).
Proof.
  intros Hc Hn (o & res & Ht). cbn in Ht. injection Ht as <-.
  destruct w as [mr s c pend reqs r u]; simpl in Hc, Hn; subst c.
  cbn. rewrite Hn. by crunch.
Qed.

Lemma spinner_step (w : world) (e : event) :
  Forall known_task (pending w) ->
  (crashed w = None -> merges (pending w) = length (pending w) ->
   busy (loadings (st w)) 2 = false) ->
  crashed (step e w) = None ->
  merges (pending (step e w)) = length (pending (step e w)) ->
  busy (loadings (st (step e w))) 2 = false.
Proof.
  intros Hknown IH Hc' Hall.
  pose proof (crashed_kept w e Hknown Hc') as Hc. specialize (IH Hc).
  pose proof (merges_le_length (pending w)) as Hle.
  destruct (step_change e w Hknown)
    as [ Hst Hp _
       | t Ht Hl Hp
       | t _ Hfree Ht Hl Hp
       | n res t t2 -> Hn Ht Ht2 Hl Hp
       | n err t -> Hn Ht Hl Hp
       | n o t -> Hn Ht Hl Hp
       | n o t _ Hn Ht Hl Hp ];
    rewrite Hp in Hall.
  - rewrite Hst. by apply IH.
  - rewrite merges_snoc, (files_task_not_merge t Ht), length_app in Hall.
    cbn in Hall. lia.
  - rewrite merges_snoc, (merge_task_is_merge t Ht), length_app in Hall.
    cbn in Hall. rewrite Hl, busy_set_ne by done. apply IH. lia.
  - rewrite merges_snoc, (json_task_not_merge t2 Ht2), length_app in Hall.
    pose proof (merges_le_length (delete n (pending w))). cbn in Hall. lia.
  - rewrite (files_rejected_clears w n t err Hc Hn Ht). apply busy_set_eq.
  - rewrite (json_settled_clears w n t o Hc Hn Ht). apply busy_set_eq.
  - pose proof (merges_delete _ _ _ Hn) as Hd.
    rewrite (merge_task_is_merge t Ht) in Hd.
    assert (length (delete n (pending w)) = length (pending w) - 1) as Hlen
      by (apply length_delete; by eexists).
    assert (n < length (pending w)) by (by eapply lookup_lt_Some).
    destruct Hl as [-> | ->]; rewrite ?busy_set_ne by done; apply IH; lia.
Qed.

(** X6.  Unlike the merge button, the spinner of the file list cannot
    stay on: in every state a mounted page can reach, when no file-list
    fetch is pending (every pending task is a merge request), slot 2 is
    not busy. *)
Theorem file_list_spinner_never_stuck (w : world) :
  reachable w ->
  crashed w = None ->
  Forall (fun t => is_merge t = true) (pending w) ->
  busy (loadings (st w)) 2 = false.
Proof.
  intros [es ->] Hc Hall. apply merges_all in Hall. revert Hc Hall.
  induction es as [|e es IH] using rev_ind; [done|].
  rewrite run_snoc. apply spinner_step; [|exact IH].
  apply reachable_known. by exists es.
Qed.

Lemma file_list_spinner_never_stuck_witness :
  let mr := PObj {| ref := 1; id := VNum 7; status := VStr "open" |} in
  busy (loadings (st (run [Render mr; Click; Settle 0 (Rejected (TypeError "Failed to fetch"))]
                        init))) 2 = false.
Proof.
  cbv zeta.
  refine (file_list_spinner_never_stuck
    (run [Render (PObj {| ref := 1; id := VNum 7; status := VStr "open" |}); Click;
          Settle 0 (Rejected (TypeError "Failed to fetch"))] init)
    (ex_intro _ [Render (PObj {| ref := 1; id := VNum 7; status := VStr "open" |}); Click;
                 Settle 0 (Rejected (TypeError "Failed to fetch"))] eq_refl)
    eq_refl _).
  repeat constructor.
Defined.
